(** * BulkStringRequest: the bulk "index" request encoder of package elastic

    A shallow embedding of [bulk_string_request.go]: the request record, its
    twelve fluent setters, [Source] (the two NDJSON lines, memoized in the
    [source] field) and [String].  The part of Go's [encoding/json] that
    [Source] runs on its own maps (objects with sorted keys, string literals,
    integers) is written out; [json.Marshal] on the caller's document is a
    parameter, since the document may be any Go value. *)

From Stdlib Require Import ZArith Ascii DecimalString.
From Stdlib.Strings Require Import Byte.
From stdpp Require Import base gmap strings list sorting.

Module SString := Stdlib.Strings.String.

(** ** Go strings

    A Go string is a sequence of bytes; [<] on strings compares them byte by
    byte, a proper prefix being smaller. *)
Module GoString.

Definition lt (a b : string) : Prop := SString.compare a b = Lt.
Definition le (a b : string) : Prop := SString.leb a b = true.

#[global] Instance lt_dec a b : Decision (lt a b).
Proof. unfold lt. solve_decision. Defined.
#[global] Instance le_dec a b : Decision (le a b).
Proof. unfold le. solve_decision. Defined.

(** [strings.Join]. *)
Definition Join (elems : list string) (sep : string) : string :=
  SString.concat sep elems.

(** The conversion [string(b)] of a byte slice. *)
Definition of_bytes (b : list byte) : string := SString.string_of_list_byte b.
Definition to_bytes (s : string) : list byte := SString.list_byte_of_string s.

(** The one-character string holding the double quote, byte 34. *)
Definition dquote : string := String "034"%char "".

(** The one-character string holding the line feed, byte 10. *)
Definition newline : string := String "010"%char "".

(** Expected outputs are written with apostrophes where the wire has double
    quotes; [dq] puts the double quotes back. *)
Fixpoint dq (s : string) : string :=
  match s with
  | EmptyString => EmptyString
  | String c s' => String (if Ascii.eqb c "'"%char then "034"%char else c) (dq s')
  end.

(** No byte of the string is the line feed: the string is one line. *)
Fixpoint oneLine (s : string) : bool :=
  match s with
  | EmptyString => true
  | String c s' => negb (Ascii.eqb c "010"%char) && oneLine s'
  end.

End GoString.

(** ** The fragment of [encoding/json] that [Source] exercises itself *)
Module json.

#[local] Open Scope Z_scope.

(** The dynamic values [Source] stores in its action map: a [string] field,
    the [int64] version, the [int] behind [retryOnConflict]. *)
Inductive Value :=
| VString (s : string)
| VInt64 (n : Z)
| VInt (n : Z).

#[global] Instance Value_eq_dec : EqDecision Value.
Proof. solve_decision. Defined.

Definition byteZ (c : ascii) : Z := Z.of_N (N_of_ascii c).

Definition hex (n : Z) : ascii :=
  nth (Z.to_nat n) (SString.list_ascii_of_string "0123456789abcdef") "0"%char.

(** [htmlSafeSet]: printable ASCII except the double quote, the backslash and
    the three characters escaped for HTML, ampersand and the angle brackets. *)
Definition htmlSafeSet (b : Z) : bool :=
  (32 <=? b)%Z && (b <? 128)%Z &&
  negb ((b =? 34) || (b =? 92) || (b =? 38) || (b =? 60) || (b =? 62))%Z.

(** The escape written for an ASCII byte outside [htmlSafeSet], as in the Go
    releases the package was written for; later releases write the short
    escapes for the bytes 8 and 12 as well. *)
Definition escapeByte (c : ascii) : string :=
  let b := byteZ c in
  if ((b =? 92) || (b =? 34))%Z then String "\"%char (String c "")
  else if (b =? 10)%Z then "\n"
  else if (b =? 13)%Z then "\r"
  else if (b =? 9)%Z then "\t"
  else "\u00" +:+ String (hex (Z.shiftr b 4)) (String (hex (Z.land b 15)) "").

(** [utf8.first] with [utf8.acceptRanges]: for a leading byte, the length of
    the sequence and the range allowed for its second byte; [None] for a byte
    that starts no sequence. *)
Definition first (b : Z) : option (Z * Z * Z) :=
  if (b <? 194)%Z then None
  else if (b <? 224)%Z then Some (2, 128, 191)
  else if (b =? 224)%Z then Some (3, 160, 191)
  else if (b =? 237)%Z then Some (3, 128, 159)
  else if (b <? 240)%Z then Some (3, 128, 191)
  else if (b =? 240)%Z then Some (4, 144, 191)
  else if (b <? 244)%Z then Some (4, 128, 191)
  else if (b =? 244)%Z then Some (4, 128, 143)
  else None.

Definition between (lo hi : Z) (c : ascii) : bool :=
  (lo <=? byteZ c)%Z && (byteZ c <=? hi)%Z.

(** The loop of [encodeState.string] with [escapeHTML] on: safe ASCII and
    well-formed multi-byte runes are copied, a byte that does not decode
    becomes the six characters of the escape for U+FFFD, and U+2028 and
    U+2029 are escaped. *)
Fixpoint escape (s : string) : string :=
  match s with
  | EmptyString => EmptyString
  | String c s1 =>
    let b := byteZ c in
    let invalid := "\ufffd" +:+ escape s1 in
    if (b <? 128)%Z then
      (if htmlSafeSet b then String c "" else escapeByte c) +:+ escape s1
    else
      match first b, s1 with
      | Some (size, lo, hi), String c1 s2 =>
        if negb (between lo hi c1) then invalid
        else if (size =? 2)%Z then String c (String c1 (escape s2))
        else
          match s2 with
          | String c2 s3 =>
            if negb (between 128 191 c2) then invalid
            else if (size =? 3)%Z then
              if (b =? 226)%Z && (byteZ c1 =? 128)%Z
                 && ((byteZ c2 =? 168) || (byteZ c2 =? 169))%Z
              then "\u202" +:+ String (hex (Z.land (byteZ c2) 15)) (escape s3)
              else String c (String c1 (String c2 (escape s3)))
            else
              match s3 with
              | String c3 s4 =>
                if negb (between 128 191 c3) then invalid
                else String c (String c1 (String c2 (String c3 (escape s4))))
              | EmptyString => invalid
              end
          | EmptyString => invalid
          end
      | _, _ => invalid
      end
  end.

(** [encodeState.string]: a JSON string literal. *)
Definition encodeString (s : string) : string :=
  GoString.dquote +:+ escape s +:+ GoString.dquote.

(** [strconv.AppendInt(b, n, 10)]. *)
Definition encodeInt (n : Z) : string := NilZero.string_of_int (Z.to_int n).

Definition encodeValue (v : Value) : string :=
  match v with
  | VString s => encodeString s
  | VInt64 n => encodeInt n
  | VInt n => encodeInt n
  end.

(** [mapEncoder.encode] collects the keys of the map and sorts them with [<]
    on strings before writing.  The keys of a map are distinct and the order
    is total, so every sorting algorithm yields the same sequence. *)
Definition byKey {A} : relation (string * A) := λ x y, GoString.le x.1 y.1.

Definition sortedMembers {A} (m : gmap string A) : list (string * A) :=
  merge_sort byKey (map_to_list m).

(** One member, [key:value], and the object text around the members. *)
Definition encodeMember {A} (enc : A → string) (kv : string * A) : string :=
  encodeString kv.1 +:+ ":" +:+ enc kv.2.

Definition encodeMembers {A} (enc : A → string) (kvs : list (string * A)) : string :=
  "{" +:+ GoString.Join (encodeMember enc <$> kvs) "," +:+ "}".

(** A non-nil map: the object of its members in key order. *)
Definition encodeMap {A} (enc : A → string) (m : gmap string A) : string :=
  encodeMembers enc (sortedMembers m).

(** [json.Marshal] on [command], a [map[string]interface{}] whose only values
    are maps of strings and integers: none of the encoder's errors
    (unsupported type, unsupported value, a failing [MarshalJSON]) can arise,
    so the call yields bytes. *)
Definition MarshalCommand {E : Type} (command : gmap string (gmap string Value))
  : list byte + E :=
  inl (GoString.to_bytes (encodeMap (encodeMap encodeValue) command)).

End json.

(** ** What the Go runtime contributes

    [V] stands for the Go values a caller may pass as a document other than
    the four kinds [Source] treats as text, [E] for Go's [error] values.
    [Marshal] is [json.Marshal] on such a value and [Error] the method
    [err.Error()], which is what the verb [%v] prints.  [Marshal] gives what
    [json.Marshal] returns; a panic raised by a document's own [MarshalJSON]
    or [MarshalText], which [json.Marshal] raises again, is not modelled. *)
Class GoRuntime (V E : Type) := {
  Marshal : V → list byte + E;
  Error : E → string;
}.

(** A Go call either comes back with its results or panics. *)
Inductive Run (A : Type) :=
| Done (a : A)
| Panic.
Arguments Done {A} a.
Arguments Panic {A}.

(** ** Package elastic *)
Module elastic.
Import GoString json.

(** The dynamic type of a non-nil [doc interface{}], as the type switch of
    [Source] tells the cases apart.  A pointer is [None] when it is nil: an
    interface holding a typed nil pointer is itself not nil. *)
Inductive Payload (V : Type) :=
| RawMessage (t : list byte)
| RawMessagePtr (t : option (list byte))
| GoStr (t : string)
| GoStrPtr (t : option string)
| Other (v : V).
Arguments RawMessage {V} t.
Arguments RawMessagePtr {V} t.
Arguments GoStr {V} t.
Arguments GoStrPtr {V} t.
Arguments Other {V} v.

(** [doc] and [retryOnConflict] are [None] for nil, and so is [source], the
    memoized result of [Source]. *)
Record BulkStringRequest (V : Type) := mkBulkStringRequest {
  index : string;
  typ : string;
  id : string;
  opType : string;
  routing : string;
  parent : string;
  version : Z;
  versionType : string;
  doc : option (Payload V);
  pipeline : string;
  retryOnConflict : option Z;
  ttl : string;
  source : option (list string);
}.
Arguments mkBulkStringRequest {V}.
Arguments index {V} r : rename.
Arguments typ {V} r : rename.
Arguments id {V} r : rename.
Arguments opType {V} r : rename.
Arguments routing {V} r : rename.
Arguments parent {V} r : rename.
Arguments version {V} r : rename.
Arguments versionType {V} r : rename.
Arguments doc {V} r : rename.
Arguments pipeline {V} r : rename.
Arguments retryOnConflict {V} r : rename.
Arguments ttl {V} r : rename.
Arguments source {V} r : rename.

(** The fields of a request that a setter assigns. *)
Inductive Field :=
| FieldIndex | FieldTyp | FieldId | FieldOpType | FieldRouting | FieldParent
| FieldVersion | FieldVersionType | FieldDoc | FieldRetryOnConflict | FieldTTL
| FieldPipeline.

#[global] Instance Field_eq_dec : EqDecision Field.
Proof. solve_decision. Defined.

Section Request.
Context {V E : Type} `{!GoRuntime V E}.

#[local] Abbreviation Request := (BulkStringRequest V).

(** Every field not named in the composite literal has its zero value. *)
Definition NewBulkStringRequest : Request :=
  mkBulkStringRequest "" "" "" "index" "" "" 0 "" None "" None "" None.

Definition Index (index' : string) (r : Request) : Request :=
  mkBulkStringRequest index' (typ r) (id r) (opType r) (routing r) (parent r)
    (version r) (versionType r) (doc r) (pipeline r) (retryOnConflict r) (ttl r)
    None.

Definition Type_ (typ' : string) (r : Request) : Request :=
  mkBulkStringRequest (index r) typ' (id r) (opType r) (routing r) (parent r)
    (version r) (versionType r) (doc r) (pipeline r) (retryOnConflict r) (ttl r)
    None.

Definition Id (id' : string) (r : Request) : Request :=
  mkBulkStringRequest (index r) (typ r) id' (opType r) (routing r) (parent r)
    (version r) (versionType r) (doc r) (pipeline r) (retryOnConflict r) (ttl r)
    None.

Definition OpType (opType' : string) (r : Request) : Request :=
  mkBulkStringRequest (index r) (typ r) (id r) opType' (routing r) (parent r)
    (version r) (versionType r) (doc r) (pipeline r) (retryOnConflict r) (ttl r)
    None.

Definition Routing (routing' : string) (r : Request) : Request :=
  mkBulkStringRequest (index r) (typ r) (id r) (opType r) routing' (parent r)
    (version r) (versionType r) (doc r) (pipeline r) (retryOnConflict r) (ttl r)
    None.

Definition Parent (parent' : string) (r : Request) : Request :=
  mkBulkStringRequest (index r) (typ r) (id r) (opType r) (routing r) parent'
    (version r) (versionType r) (doc r) (pipeline r) (retryOnConflict r) (ttl r)
    None.

Definition Version (version' : Z) (r : Request) : Request :=
  mkBulkStringRequest (index r) (typ r) (id r) (opType r) (routing r) (parent r)
    version' (versionType r) (doc r) (pipeline r) (retryOnConflict r) (ttl r)
    None.

Definition VersionType (versionType' : string) (r : Request) : Request :=
  mkBulkStringRequest (index r) (typ r) (id r) (opType r) (routing r) (parent r)
    (version r) versionType' (doc r) (pipeline r) (retryOnConflict r) (ttl r)
    None.

(** The argument is an [interface{}]: [None] is the nil interface. *)
Definition Doc (doc' : option (Payload V)) (r : Request) : Request :=
  mkBulkStringRequest (index r) (typ r) (id r) (opType r) (routing r) (parent r)
    (version r) (versionType r) doc' (pipeline r) (retryOnConflict r) (ttl r)
    None.

(** The field points at the setter's own copy of the argument. *)
Definition RetryOnConflict (retryOnConflict' : Z) (r : Request) : Request :=
  mkBulkStringRequest (index r) (typ r) (id r) (opType r) (routing r) (parent r)
    (version r) (versionType r) (doc r) (pipeline r) (Some retryOnConflict')
    (ttl r) None.

Definition TTL (ttl' : string) (r : Request) : Request :=
  mkBulkStringRequest (index r) (typ r) (id r) (opType r) (routing r) (parent r)
    (version r) (versionType r) (doc r) (pipeline r) (retryOnConflict r) ttl'
    None.

Definition Pipeline (pipeline' : string) (r : Request) : Request :=
  mkBulkStringRequest (index r) (typ r) (id r) (opType r) (routing r) (parent r)
    (version r) (versionType r) (doc r) pipeline' (retryOnConflict r) (ttl r)
    None.

(** The cache written at the end of [Source]: [r.source = lines]. *)
Definition setSource (lines : list string) (r : Request) : Request :=
  mkBulkStringRequest (index r) (typ r) (id r) (opType r) (routing r) (parent r)
    (version r) (versionType r) (doc r) (pipeline r) (retryOnConflict r) (ttl r)
    (Some lines).

(** The map [indexCommand] once the ten conditional assignments have run. *)
Definition indexCommand (r : Request) : gmap string Value :=
  let indexCommand : gmap string Value := ∅ in
  let indexCommand :=
    if decide (index r ≠ "") then <["_index" := VString (index r)]> indexCommand
    else indexCommand in
  let indexCommand :=
    if decide (typ r ≠ "") then <["_type" := VString (typ r)]> indexCommand
    else indexCommand in
  let indexCommand :=
    if decide (id r ≠ "") then <["_id" := VString (id r)]> indexCommand
    else indexCommand in
  let indexCommand :=
    if decide (routing r ≠ "") then <["_routing" := VString (routing r)]> indexCommand
    else indexCommand in
  let indexCommand :=
    if decide (parent r ≠ "") then <["_parent" := VString (parent r)]> indexCommand
    else indexCommand in
  let indexCommand :=
    if decide (version r > 0)%Z then <["_version" := VInt64 (version r)]> indexCommand
    else indexCommand in
  let indexCommand :=
    if decide (versionType r ≠ "")
    then <["_version_type" := VString (versionType r)]> indexCommand
    else indexCommand in
  let indexCommand :=
    match retryOnConflict r with
    | Some n => <["_retry_on_conflict" := VInt n]> indexCommand
    | None => indexCommand
    end in
  let indexCommand :=
    if decide (ttl r ≠ "") then <["_ttl" := VString (ttl r)]> indexCommand
    else indexCommand in
  let indexCommand :=
    if decide (pipeline r ≠ "") then <["pipeline" := VString (pipeline r)]> indexCommand
    else indexCommand in
  indexCommand.

(** [Source]: the cached lines if there are any; otherwise the action line
    from [command], then the document line by the type switch on [doc], and
    the two lines are cached.  A return with an error leaves [r] as it was,
    and so does the panic of dereferencing a nil pointer. *)
Definition Source (r : Request) : Run (list string + E) * Request :=
  match source r with
  | Some lines => (Done (inl lines), r)
  | None =>
    let lines := replicate 2 "" in
    let command : gmap string (gmap string Value) :=
      <[opType r := indexCommand r]> ∅ in
    match MarshalCommand command with
    | inr err => (Done (inr err), r)
    | inl line =>
      let lines := <[0%nat := of_bytes line]> lines in
      let finish (line2 : string) :=
        let lines := <[1%nat := line2]> lines in
        (Done (inl lines), setSource lines r) in
      match doc r with
      | Some (Other v) =>
        match Marshal v with
        | inr err => (Done (inr err), r)
        | inl body => finish (of_bytes body)
        end
      | Some (RawMessage t) => finish (of_bytes t)
      | Some (RawMessagePtr (Some t)) => finish (of_bytes t)
      | Some (RawMessagePtr None) => (Panic, r)
      | Some (GoStr t) => finish t
      | Some (GoStrPtr (Some t)) => finish t
      | Some (GoStrPtr None) => (Panic, r)
      | None => finish "{}"
      end
    end
  end.

(** [String]: the two lines joined by a newline, or the error as text.  The
    call to [Source] may fill the cache of [r]. *)
Definition String (r : Request) : Run string * Request :=
  match Source r with
  | (Done (inr err), r') => (Done ("error: " +:+ Error err), r')
  | (Done (inl lines), r') => (Done (Join lines newline), r')
  | (Panic, r') => (Panic, r')
  end.

(** The assignment [r.source = nil] on its own. *)
Definition dropSource (r : Request) : Request :=
  mkBulkStringRequest (index r) (typ r) (id r) (opType r) (routing r) (parent r)
    (version r) (versionType r) (doc r) (pipeline r) (retryOnConflict r) (ttl r)
    None.

(** The payloads of the data model: none, a structured value, raw bytes or a
    raw string, the last two by value or behind a pointer that is not nil. *)
Definition isPayload (d : option (Payload V)) : bool :=
  match d with
  | Some (RawMessagePtr None) | Some (GoStrPtr None) => false
  | _ => true
  end.

(** The payloads that are text already, and the absent one. *)
Definition isRawOrAbsent (d : option (Payload V)) : bool :=
  match d with
  | Some (Other _) => false
  | _ => isPayload d
  end.

(** The members written into the action object, in the order written. *)
Definition actionMembers (r : Request) : list (string * Value) :=
  sortedMembers (indexCommand r).

(** The action line member by member: an object with the one key [opType],
    whose value is the object of the action members. *)
Definition actionLine (r : Request) : string :=
  encodeMembers (encodeMembers encodeValue) [(opType r, actionMembers r)].

(** The table of the string fields and their keys. *)
Definition stringFields : list ((Request → string) * string) :=
  [ (index, "_index"); (typ, "_type"); (id, "_id"); (routing, "_routing");
    (parent, "_parent"); (versionType, "_version_type"); (ttl, "_ttl");
    (pipeline, "pipeline") ].

(** All ten keys of the table. *)
Definition tableKeys : list string :=
  [ "_index"; "_type"; "_id"; "_routing"; "_parent"; "_version";
    "_version_type"; "_retry_on_conflict"; "_ttl"; "pipeline" ].

(** A call on a request: one of the setters, or [Source]. *)
Inductive Call :=
| CallIndex (index : string)
| CallType (typ : string)
| CallId (id : string)
| CallOpType (opType : string)
| CallRouting (routing : string)
| CallParent (parent : string)
| CallVersion (version : Z)
| CallVersionType (versionType : string)
| CallDoc (doc : option (Payload V))
| CallRetryOnConflict (retryOnConflict : Z)
| CallTTL (ttl : string)
| CallPipeline (pipeline : string)
| CallSource.

Definition isSetter (c : Call) : bool :=
  match c with CallSource => false | _ => true end.

(** The request after a call. *)
Definition call (r : Request) (c : Call) : Request :=
  match c with
  | CallIndex s => Index s r
  | CallType s => Type_ s r
  | CallId s => Id s r
  | CallOpType s => OpType s r
  | CallRouting s => Routing s r
  | CallParent s => Parent s r
  | CallVersion n => Version n r
  | CallVersionType s => VersionType s r
  | CallDoc d => Doc d r
  | CallRetryOnConflict n => RetryOnConflict n r
  | CallTTL s => TTL s r
  | CallPipeline s => Pipeline s r
  | CallSource => (Source r).2
  end.

(** The request a caller holds after a sequence of calls on a new one. *)
Definition calls (cs : list Call) : Request := foldl call NewBulkStringRequest cs.

(** The argument of the last [RetryOnConflict] among the calls, if any. *)
Definition lastRetryOnConflict (cs : list Call) : option Z :=
  foldl (λ acc c, match c with CallRetryOnConflict n => Some n | _ => acc end)
        None cs.

(** The field a call assigns; [Source] assigns none of them. *)
Definition assigned (c : Call) : option Field :=
  match c with
  | CallIndex _ => Some FieldIndex
  | CallType _ => Some FieldTyp
  | CallId _ => Some FieldId
  | CallOpType _ => Some FieldOpType
  | CallRouting _ => Some FieldRouting
  | CallParent _ => Some FieldParent
  | CallVersion _ => Some FieldVersion
  | CallVersionType _ => Some FieldVersionType
  | CallDoc _ => Some FieldDoc
  | CallRetryOnConflict _ => Some FieldRetryOnConflict
  | CallTTL _ => Some FieldTTL
  | CallPipeline _ => Some FieldPipeline
  | CallSource => None
  end.

(** The ten keys of the table in ascending byte order. *)
Definition orderedKeys : list string :=
  [ "_id"; "_index"; "_parent"; "_retry_on_conflict"; "_routing"; "_ttl";
    "_type"; "_version"; "_version_type"; "pipeline" ].

End Request.
End elastic.

(** ** The values of the test suite *)
Module tests.
Import GoString json elastic.

(** Modelled from the spec: the struct [employee] of the package's tests is
    declared outside the two files at hand.  Its three fields and their JSON
    names, in declaration order, are read off the expected lines
    [{'user':'olivere','city':'','age':0}]. *)
Record employee := mkEmployee {
  User : string;
  City : string;
  Age : Z;
}.

(** The documents used below: an [employee], and a channel, a Go value
    [json.Marshal] refuses with an unsupported-type error. *)
Inductive value :=
| Employee (e : employee)
| Chan.

#[global] Instance runtime : GoRuntime value string := {|
  Marshal v :=
    match v with
    | Employee e =>
      inl (to_bytes (dq "{'user':" +:+ encodeString (User e) +:+
                     dq ",'city':" +:+ encodeString (City e) +:+
                     dq ",'age':" +:+ encodeInt (Age e) +:+ "}"))
    | Chan => inr "json: unsupported type: chan int"
    end;
  Error e := e;
|}.

(** The six requests of [TestBulkStringRequestSerialization], as the calls
    made on a new request, and the lines the test expects. *)
Definition olivere : option (Payload value) :=
  Some (Other (Employee (mkEmployee "olivere" "" 0))).

Definition case0 : list (Call (V:=value)) :=
  [CallIndex "index101"; CallType "employee"; CallId "1"; CallDoc olivere].
Definition expected0 : list string :=
  [dq "{'index':{'_id':'1','_index':'index101','_type':'employee'}}";
   dq "{'user':'olivere','city':'','age':0}"].

Definition case1 : list (Call (V:=value)) :=
  [CallOpType "create"; CallIndex "index101"; CallType "employee"; CallId "1";
   CallDoc (Some (Other (Employee (mkEmployee "olivere" "santafe" 56))))].
Definition expected1 : list string :=
  [dq "{'create':{'_id':'1','_index':'index101','_type':'employee'}}";
   dq "{'user':'olivere','city':'santafe','age':56}"].

Definition case2 : list (Call (V:=value)) :=
  [CallOpType "index"; CallIndex "index101"; CallType "employee"; CallId "1";
   CallDoc olivere].
Definition expected2 : list string := expected0.

Definition case3 : list (Call (V:=value)) :=
  [CallOpType "index"; CallIndex "index101"; CallType "employee"; CallId "1";
   CallRetryOnConflict 42; CallDoc olivere].
Definition expected3 : list string :=
  [dq "{'index':{'_id':'1','_index':'index101','_retry_on_conflict':42,'_type':'employee'}}";
   dq "{'user':'olivere','city':'','age':0}"].

Definition case4 : list (Call (V:=value)) :=
  [CallOpType "index"; CallIndex "index101"; CallType "employee"; CallId "1";
   CallPipeline "my_pipeline"; CallDoc olivere].
Definition expected4 : list string :=
  [dq "{'index':{'_id':'1','_index':'index101','_type':'employee','pipeline':'my_pipeline'}}";
   dq "{'user':'olivere','city':'','age':0}"].

Definition case5 : list (Call (V:=value)) :=
  [CallOpType "index"; CallIndex "index101"; CallType "employee"; CallId "1";
   CallTTL "1m"; CallDoc olivere].
Definition expected5 : list string :=
  [dq "{'index':{'_id':'1','_index':'index101','_ttl':'1m','_type':'employee'}}";
   dq "{'user':'olivere','city':'','age':0}"].

(** Further requests: a retry count of zero between two other setters, a
    version below zero, a document [json.Marshal] refuses, an operation type
    set to the empty string, and a document given as a string. *)
Definition retryZero : list (Call (V:=value)) :=
  [CallIndex "i"; CallRetryOnConflict 0; CallId "1"].
Definition negativeVersion : list (Call (V:=value)) :=
  [CallVersion (-3); CallId "1"].
Definition refused : list (Call (V:=value)) := [CallDoc (Some (Other Chan))].
Definition nilStringPointer : list (Call (V:=value)) :=
  [CallDoc (Some (GoStrPtr None))].
Definition emptyOpType : list (Call (V:=value)) := [CallOpType ""].
Definition idThenIndex : list (Call (V:=value)) :=
  [CallId "1"; CallIndex "index101"].
Definition indexThenId : list (Call (V:=value)) :=
  [CallIndex "index101"; CallId "1"].
Definition retryThenMore : list (Call (V:=value)) :=
  [CallRetryOnConflict 3; CallIndex "i"; CallSource; CallVersion 0].
Definition asString : list (Call (V:=value)) :=
  [CallId "1"; CallDoc (Some (GoStr (dq "{'user':'olivere','city':'','age':0}")))].

End tests.

(** * Theorems *)

(** ** The order on Go strings *)
Module GoStringFacts.
Import GoString.

Lemma ascii_compare_refl (a : ascii) : Ascii.compare a a = Eq.
Proof. apply N.compare_refl. Qed.

Lemma ascii_compare_lt_trans (a b c : ascii) :
  Ascii.compare a b = Lt → Ascii.compare b c = Lt → Ascii.compare a c = Lt.
Proof.
  unfold Ascii.compare. rewrite !N.compare_lt_iff. apply N.lt_trans.
Qed.

Lemma compare_refl (a : string) : SString.compare a a = Eq.
Proof. induction a as [|c a IH]; simpl; [done|]. by rewrite ascii_compare_refl. Qed.

Lemma compare_lt_trans (a b c : string) :
  SString.compare a b = Lt → SString.compare b c = Lt → SString.compare a c = Lt.
Proof.
  revert b c. induction a as [|x a IH]; intros [|y b] [|z c]; simpl; try done.
  destruct (Ascii.compare x y) eqn:Hxy; try done;
    destruct (Ascii.compare y z) eqn:Hyz; try done.
  - apply Ascii.compare_eq_iff in Hxy as ->. rewrite Hyz. apply IH.
  - apply Ascii.compare_eq_iff in Hxy as ->. by rewrite Hyz.
  - apply Ascii.compare_eq_iff in Hyz as <-. by rewrite Hxy.
  - by rewrite (ascii_compare_lt_trans _ _ _ Hxy Hyz).
Qed.

Lemma le_lt_or_eq (a b : string) : le a b ↔ lt a b ∨ a = b.
Proof.
  unfold le, lt, SString.leb. split.
  - destruct (SString.compare a b) eqn:Hab; try done; [right|by left].
    by apply SString.compare_eq_iff.
  - intros [-> | ->]; [done|]. by rewrite compare_refl.
Qed.

Lemma lt_irrefl (a : string) : ¬ lt a a.
Proof. unfold lt. by rewrite compare_refl. Qed.

#[global] Instance lt_strict : StrictOrder lt.
Proof.
  split; [intros a; apply lt_irrefl | intros a b c; apply compare_lt_trans].
Qed.

#[global] Instance le_trans : Transitive le.
Proof.
  intros a b c. rewrite !le_lt_or_eq. intros [Hab | ->] [Hbc | ->]; auto.
  left. by etrans.
Qed.

#[global] Instance le_total : Total le.
Proof. intros a b. apply SString.leb_total. Qed.

Lemma le_ne_lt (a b : string) : le a b → a ≠ b → lt a b.
Proof. rewrite le_lt_or_eq. by intros [?|?]. Qed.

(** A list without duplicates that is sorted by [le] is strictly ascending. *)
Lemma StronglySorted_le_NoDup (l : list string) :
  StronglySorted le l → NoDup l → StronglySorted lt l.
Proof.
  induction 1 as [|a l Hl IH Ha]; intros Hnd; [constructor|].
  apply NoDup_cons in Hnd as [Hnotin Hnd]. constructor; [by apply IH|].
  rewrite Forall_forall in Ha |- *. intros b Hb.
  apply le_ne_lt; [by apply Ha|]. intros ->. by apply Hnotin.
Qed.

End GoStringFacts.

(** ** The encoder of objects *)
Module jsonFacts.
Import GoString GoStringFacts json.

Lemma of_to_bytes (s : string) : of_bytes (to_bytes s) = s.
Proof. apply SString.string_of_list_byte_of_string. Qed.

Lemma append_assoc (a b c : string) : (a +:+ b) +:+ c = a +:+ b +:+ c.
Proof.
  induction a as [|x a IH]; [done|].
  change (String x ((a +:+ b) +:+ c) = String x (a +:+ b +:+ c)). by rewrite IH.
Qed.

Lemma append_nil_r (a : string) : a +:+ "" = a.
Proof.
  induction a as [|x a IH]; [done|].
  change (String x (a +:+ "") = String x a). by rewrite IH.
Qed.

(** An element of a joined list is a piece of the text. *)
Lemma Join_elem_of (x sep : string) (l : list string) :
  x ∈ l → ∃ pre post, Join l sep = pre +:+ x +:+ post.
Proof.
  unfold Join. induction l as [|y l IH]; [by intros ?%elem_of_nil|].
  intros [-> | Hx]%elem_of_cons.
  - exists "". destruct l as [|z l].
    + exists "". symmetry. apply append_nil_r.
    + by exists (sep +:+ SString.concat sep (z :: l)).
  - destruct (IH Hx) as (pre & post & Heq).
    destruct l as [|z l]; [by apply elem_of_nil in Hx|].
    exists (y +:+ sep +:+ pre), post.
    change (SString.concat sep (y :: z :: l)) with (y +:+ sep +:+ SString.concat sep (z :: l)).
    by rewrite Heq, !append_assoc.
Qed.

Section members.
Context {A : Type}.
Implicit Types (m : gmap string A) (k : string) (v : A).

#[local] Instance byKey_trans : Transitive (@byKey A).
Proof. intros x y z. unfold byKey. apply le_trans. Qed.

#[local] Instance byKey_total : Total (@byKey A).
Proof. intros x y. unfold byKey. apply le_total. Qed.

Lemma sortedMembers_Permutation m : sortedMembers m ≡ₚ map_to_list m.
Proof. apply merge_sort_Permutation. Qed.

(** The encoder writes the members of the map, all of them and nothing else. *)
Lemma elem_of_sortedMembers m k v : (k, v) ∈ sortedMembers m ↔ m !! k = Some v.
Proof. by rewrite sortedMembers_Permutation, elem_of_map_to_list. Qed.

Lemma elem_of_sortedMembers_keys m k : k ∈ (sortedMembers m).*1 ↔ is_Some (m !! k).
Proof.
  rewrite list_elem_of_fmap. split.
  - intros ([k' v] & -> & Hkv). apply elem_of_sortedMembers in Hkv. by eexists.
  - intros [v Hv]. exists (k, v). by rewrite elem_of_sortedMembers.
Qed.

(** Every key is written once. *)
Lemma sortedMembers_NoDup m : NoDup (sortedMembers m).*1.
Proof. rewrite sortedMembers_Permutation. apply NoDup_fst_map_to_list. Qed.

(** The keys are written in strictly ascending order. *)
Lemma sortedMembers_sorted m : StronglySorted lt (sortedMembers m).*1.
Proof.
  apply StronglySorted_le_NoDup; [|apply sortedMembers_NoDup].
  apply (StronglySorted_fmap fst byKey le); [done|].
  apply (StronglySorted_merge_sort byKey).
Qed.

Lemma sortedMembers_singleton k v : sortedMembers ({[k := v]} : gmap string A) = [(k, v)].
Proof. unfold sortedMembers. by rewrite map_to_list_singleton. Qed.

(** The text of a member that is written is a piece of the object's text. *)
Lemma encodeMap_member (enc : A → string) m k v :
  m !! k = Some v →
  ∃ pre post, encodeMap enc m = pre +:+ encodeMember enc (k, v) +:+ post.
Proof.
  intros Hkv%elem_of_sortedMembers. unfold encodeMap, encodeMembers.
  destruct (Join_elem_of (encodeMember enc (k, v)) ","
              (encodeMember enc <$> sortedMembers m)) as (pre & post & ->).
  { apply list_elem_of_fmap. by exists (k, v). }
  exists ("{" +:+ pre), (post +:+ "}"). by rewrite !append_assoc.
Qed.

End members.
End jsonFacts.

(** ** Package elastic *)
Module elasticFacts.
Import GoString GoStringFacts json jsonFacts elastic.

Section facts.
Context {V E : Type} `{!GoRuntime V E}.
Implicit Types (r : BulkStringRequest V) (k : string) (v : Value).

Lemma lookup_if_insert (P : Prop) `{!Decision P} (m : gmap string Value) k' v k :
  (if decide P then <[k' := v]> m else m) !! k
  = if decide (k = k' ∧ P) then Some v else m !! k.
Proof.
  destruct (decide P) as [HP|HP]; destruct (decide (k = k' ∧ P)) as [Hk|Hk].
  - destruct Hk as [-> _]. apply lookup_insert_eq.
  - rewrite lookup_insert_ne; [done|]. intros <-. by apply Hk.
  - by destruct Hk.
  - done.
Qed.

Lemma lookup_opt_insert (o : option Z) (m : gmap string Value) k' k :
  (match o with Some n => <[k' := VInt n]> m | None => m end) !! k
  = if decide (k = k' ∧ is_Some o) then VInt <$> o else m !! k.
Proof.
  destruct o as [n|]; destruct (decide _) as [Hk|Hk]; simpl.
  - destruct Hk as [-> _]. apply lookup_insert_eq.
  - rewrite lookup_insert_ne; [done|]. intros <-. apply Hk. eauto.
  - by destruct Hk as [_ [? ?]].
  - done.
Qed.

(** The action map, key by key. *)
Lemma indexCommand_lookup r k :
  indexCommand r !! k =
    if decide (k = "pipeline" ∧ pipeline r ≠ "") then Some (VString (pipeline r))
    else if decide (k = "_ttl" ∧ ttl r ≠ "") then Some (VString (ttl r))
    else if decide (k = "_retry_on_conflict" ∧ is_Some (retryOnConflict r))
      then VInt <$> retryOnConflict r
    else if decide (k = "_version_type" ∧ versionType r ≠ "")
      then Some (VString (versionType r))
    else if decide (k = "_version" ∧ (version r > 0)%Z) then Some (VInt64 (version r))
    else if decide (k = "_parent" ∧ parent r ≠ "") then Some (VString (parent r))
    else if decide (k = "_routing" ∧ routing r ≠ "") then Some (VString (routing r))
    else if decide (k = "_id" ∧ id r ≠ "") then Some (VString (id r))
    else if decide (k = "_type" ∧ typ r ≠ "") then Some (VString (typ r))
    else if decide (k = "_index" ∧ index r ≠ "") then Some (VString (index r))
    else None.
Proof.
  unfold indexCommand.
  rewrite !lookup_if_insert, lookup_opt_insert, !lookup_if_insert.
  by rewrite lookup_empty.
Qed.

Lemma elem_of_actionMembers r k v :
  (k, v) ∈ actionMembers r ↔ indexCommand r !! k = Some v.
Proof. apply elem_of_sortedMembers. Qed.

Lemma actionLine_eq r :
  encodeMap (encodeMap encodeValue) (<[opType r := indexCommand r]> ∅) = actionLine r.
Proof.
  unfold encodeMap at 1. by rewrite insert_empty, sortedMembers_singleton.
Qed.

(** ** [Source] with and without a cache *)

Lemma Source_cached r lines : source r = Some lines → Source r = (Done (inl lines), r).
Proof. intros Hs. unfold Source. by rewrite Hs. Qed.

Lemma Source_fresh r :
  source r = None →
  Source r =
    let ret line2 :=
      (Done (inl [actionLine r; line2]), setSource [actionLine r; line2] r) in
    match doc r with
    | None => ret "{}"
    | Some (RawMessage t) | Some (RawMessagePtr (Some t)) => ret (of_bytes t)
    | Some (GoStr t) | Some (GoStrPtr (Some t)) => ret t
    | Some (Other v) =>
      match Marshal v with
      | inl body => ret (of_bytes body)
      | inr err => (Done (inr err), r)
      end
    | Some (RawMessagePtr None) | Some (GoStrPtr None) => (Panic, r)
    end.
Proof.
  intros Hs. unfold Source, MarshalCommand. rewrite Hs, of_to_bytes, actionLine_eq.
  by destruct (doc r) as [[t|[t|]|t|[t|]|v]|].
Qed.

Lemma dropSource_None r : source r = None → dropSource r = r.
Proof. destruct r; simpl. by intros ->. Qed.

Lemma calls_snoc (cs : list (Call (V:=V))) c : calls (cs ++ [c]) = call (calls cs) c.
Proof. unfold calls. by rewrite foldl_app. Qed.

Lemma setter_source r (c : Call) : isSetter c = true → source (call r c) = None.
Proof. by destruct c. Qed.

(** Only the cache differs between a request and the request after [Source]. *)
Lemma Source_dropSource r : dropSource (Source r).2 = dropSource r.
Proof.
  destruct (source r) as [lines|] eqn:Hs.
  - by rewrite (Source_cached _ _ Hs).
  - rewrite (Source_fresh _ Hs). simpl.
    destruct (doc r) as [[t|[t|]|t|[t|]|v]|]; try done.
    by destruct (Marshal v).
Qed.

(** The cache of a request a caller can hold is what [Source] computes from
    the fields. *)
Lemma calls_cache (cs : list Call) lines :
  source (calls cs) = Some lines →
  (Source (dropSource (calls cs))).1 = Done (inl lines).
Proof.
  revert lines. induction cs as [|c cs IH] using rev_ind; intros lines; [done|].
  rewrite calls_snoc. set (r := calls cs) in *.
  destruct (isSetter c) eqn:Hc.
  { by rewrite (setter_source r c Hc). }
  destruct c; try done. simpl. rewrite Source_dropSource.
  destruct (source r) as [lines'|] eqn:Hs.
  - rewrite (Source_cached _ _ Hs). simpl. rewrite Hs. apply IH.
  - rewrite (dropSource_None _ Hs), (Source_fresh _ Hs). simpl.
    destruct (doc r) as [[t|[t|]|t|[t|]|v]|]; simpl; rewrite ?Hs; try done;
      try (by intros [= <-]).
    destruct (Marshal v); simpl; rewrite ?Hs; [by intros [= <-]|done].
Qed.

Lemma Source_calls (cs : list Call) :
  (Source (calls cs)).1 = (Source (dropSource (calls cs))).1.
Proof.
  destruct (source (calls cs)) as [lines|] eqn:Hs.
  - by rewrite (Source_cached _ _ Hs), (calls_cache _ _ Hs).
  - by rewrite (dropSource_None _ Hs).
Qed.

(** What [Source] hands to a caller, by the kind of the payload. *)
Lemma Source_outcome (cs : list Call) :
  let r := calls cs in
  (Source r).1 =
    match doc r with
    | None => Done (inl [actionLine r; "{}"])
    | Some (RawMessage t) | Some (RawMessagePtr (Some t)) =>
      Done (inl [actionLine r; of_bytes t])
    | Some (GoStr t) | Some (GoStrPtr (Some t)) => Done (inl [actionLine r; t])
    | Some (Other v) =>
      match Marshal v with
      | inl body => Done (inl [actionLine r; of_bytes body])
      | inr err => Done (inr err)
      end
    | Some (RawMessagePtr None) | Some (GoStrPtr None) => Panic
    end.
Proof.
  intros r. unfold r. rewrite Source_calls. fold r.
  rewrite (Source_fresh (dropSource r) eq_refl). simpl.
  destruct (doc r) as [[t|[t|]|t|[t|]|v]|]; try done.
  by destruct (Marshal v).
Qed.

(** A typed nil pointer makes the interface non-nil, and dereferencing it
    panics; such a document is none of the payloads of the data model. *)
Lemma Source_nil_pointer r :
  source r = None →
  doc r = Some (RawMessagePtr None) ∨ doc r = Some (GoStrPtr None) →
  Source r = (Panic, r).
Proof. intros Hs Hd. rewrite (Source_fresh _ Hs). by destruct Hd as [-> | ->]. Qed.

Lemma Source_lines (cs : list Call) lines :
  (Source (calls cs)).1 = Done (inl lines) →
  ∃ line2, lines = [actionLine (calls cs); line2].
Proof.
  rewrite Source_outcome.
  destruct (doc (calls cs)) as [[t|[t|]|t|[t|]|v]|]; try done;
    try (intros [= <-]; by eexists).
  destruct (Marshal v); [|done]. intros [= <-]. by eexists.
Qed.

(** [Source] changes no field but the cache. *)
Lemma Source_fields r :
  ∀ r', r' = (Source r).2 →
  index r' = index r ∧ typ r' = typ r ∧ id r' = id r ∧ opType r' = opType r ∧
  routing r' = routing r ∧ parent r' = parent r ∧ version r' = version r ∧
  versionType r' = versionType r ∧ doc r' = doc r ∧ pipeline r' = pipeline r ∧
  retryOnConflict r' = retryOnConflict r ∧ ttl r' = ttl r.
Proof.
  intros r' ->. pose proof (Source_dropSource r) as Heq.
  destruct (Source r).2, r. simpl in *. by injection Heq as -> -> -> -> -> -> -> -> -> -> -> ->.
Qed.

(** The text of a member of the action object is a piece of line 1. *)
Lemma actionLine_member r k v :
  indexCommand r !! k = Some v →
  ∃ pre post, actionLine r = pre +:+ encodeMember encodeValue (k, v) +:+ post.
Proof.
  intros (pre & post & Heq)%(encodeMap_member encodeValue).
  exists ("{" +:+ encodeString (opType r) +:+ ":" +:+ pre), (post +:+ "}").
  unfold actionLine, actionMembers, encodeMembers at 1.
  cbn [fmap list_fmap Join SString.concat].
  change (encodeMember (encodeMembers encodeValue)
            (opType r, sortedMembers (indexCommand r)))
    with (encodeString (opType r) +:+ ":" +:+ encodeMap encodeValue (indexCommand r)).
  by rewrite Heq, !append_assoc.
Qed.

(** The calls that leave a field alone. *)
Lemma retryOnConflict_calls (cs : list (Call (V:=V))) :
  retryOnConflict (calls cs) = lastRetryOnConflict cs.
Proof.
  induction cs as [|c cs IH] using rev_ind; [done|].
  rewrite calls_snoc. unfold lastRetryOnConflict in *. rewrite foldl_app. simpl.
  rewrite <- IH. destruct c; try done. simpl.
  by destruct (Source_fields (calls cs) _ eq_refl) as (_&_&_&_&_&_&_&_&_&_&->&_).
Qed.

Lemma lastRetryOnConflict_last (cs1 cs2 : list (Call (V:=V))) n :
  (∀ m, CallRetryOnConflict m ∉ cs2) →
  lastRetryOnConflict (cs1 ++ CallRetryOnConflict n :: cs2) = Some n.
Proof.
  unfold lastRetryOnConflict. rewrite foldl_app. simpl.
  generalize (foldl (λ acc c, match c with
                               | CallRetryOnConflict n => Some n
                               | _ => acc
                               end) None cs1).
  intros _. induction cs2 as [|c cs2 IH] using rev_ind; intros Hno; [done|].
  rewrite foldl_app. simpl. destruct c; try (apply IH; set_solver).
  exfalso. match goal with n : Z |- _ => apply (Hno n) end. set_solver.
Qed.

Lemma lastRetryOnConflict_never (cs : list (Call (V:=V))) :
  (∀ m, CallRetryOnConflict m ∉ cs) → lastRetryOnConflict cs = None.
Proof.
  unfold lastRetryOnConflict.
  induction cs as [|c cs IH] using rev_ind; intros Hno; [done|].
  rewrite foldl_app. simpl. destruct c; try (apply IH; set_solver).
  exfalso. match goal with n : Z |- _ => apply (Hno n) end. set_solver.
Qed.

Lemma version_never (cs : list (Call (V:=V))) :
  (∀ n, CallVersion n ∉ cs) → version (calls cs) = 0%Z.
Proof.
  induction cs as [|c cs IH] using rev_ind; intros Hno; [done|].
  rewrite calls_snoc.
  destruct c; simpl; try (apply IH; set_solver).
  - exfalso. match goal with n : Z |- _ => apply (Hno n) end. set_solver.
  - destruct (Source_fields (calls cs) _ eq_refl) as (_&_&_&_&_&_&->&_).
    apply IH. set_solver.
Qed.

Lemma opType_calls (cs : list (Call (V:=V))) :
  (∀ s, CallOpType s ∈ cs → s ≠ "") → opType (calls cs) ≠ "".
Proof.
  induction cs as [|c cs IH] using rev_ind; intros Hok; [done|].
  rewrite calls_snoc.
  destruct c; simpl; try (apply IH; set_solver).
  - apply Hok. set_solver.
  - destruct (Source_fields (calls cs) _ eq_refl) as (_&_&_&->&_).
    apply IH. set_solver.
Qed.

Lemma indexCommand_Version_nonpos r n :
  (n ≤ 0)%Z → indexCommand (Version n r) = indexCommand (Version 0 r).
Proof.
  intros Hn. unfold indexCommand. cbn [version Version].
  destruct (decide (n > 0)%Z); [lia|]. by destruct (decide (0 > 0)%Z); [lia|].
Qed.

End facts.
End elasticFacts.

(** * The claims *)
Import GoString GoStringFacts json jsonFacts elastic elasticFacts.

Section claims.
Context {V E : Type} `{!GoRuntime V E}.
Implicit Types (r : BulkStringRequest V) (cs : list (Call (V:=V))).

(** In each of these, a key known by name is looked up in the action map. *)
Ltac lookup_key :=
  rewrite indexCommand_lookup;
  repeat (let Hk := fresh "Hk" in
          case_decide as Hk; [destruct Hk as [Hk ?]; try discriminate Hk|]).

(** C1: whenever [Source] hands out lines on a request a caller can hold,
    line 1 is an object with the one top-level key [opType] whose value is
    the object of the action members, and the keys are written in strictly
    ascending byte order at both levels, whatever fields are set. *)
Theorem Source_keys_strictly_ascending cs lines :
  let r := calls cs in
  (Source r).1 = Done (inl lines) →
  lines !! 0%nat
    = Some (encodeMembers (encodeMembers encodeValue) [(opType r, actionMembers r)]) ∧
  StronglySorted lt [(opType r, actionMembers r)].*1 ∧
  StronglySorted lt (actionMembers r).*1.
Proof.
  intros r [line2 ->]%Source_lines. split; [done|]. split.
  - repeat constructor.
  - apply sortedMembers_sorted.
Qed.

(** C2: line 1 is an object with exactly one top-level key, [opType]; the
    object under it has the key of a string field of the table exactly when
    that field is not empty, and then with the field as its value; it has no
    key outside the table, no key twice, and no empty string as a value
    (there is no null among the values at all). *)
Theorem Source_action_object cs lines :
  let r := calls cs in
  (Source r).1 = Done (inl lines) →
  lines !! 0%nat
    = Some (encodeMembers (encodeMembers encodeValue) [(opType r, actionMembers r)]) ∧
  (∀ field key, (field, key) ∈ stringFields →
     (key ∈ (actionMembers r).*1 ↔ field r ≠ "") ∧
     (∀ v, (key, v) ∈ actionMembers r → v = VString (field r))) ∧
  (∀ key, key ∈ (actionMembers r).*1 → key ∈ tableKeys) ∧
  NoDup (actionMembers r).*1 ∧
  (∀ key s, (key, VString s) ∈ actionMembers r → s ≠ "").
Proof.
  intros r [line2 ->]%Source_lines. split; [done|]. split; [|split; [|split]].
  - intros field key Hin. unfold stringFields in Hin.
    unfold actionMembers. setoid_rewrite elem_of_sortedMembers.
    rewrite elem_of_sortedMembers_keys.
    repeat (apply elem_of_cons in Hin as [[= -> ->]|Hin]);
      [..|by apply elem_of_nil in Hin];
      (split; [|intros v]); lookup_key;
      try (split; [done|by eauto]); try congruence; try done;
      (split; [by intros [? ?]|naive_solver]).
  - intros key. unfold actionMembers. rewrite elem_of_sortedMembers_keys.
    rewrite indexCommand_lookup. unfold tableKeys.
    repeat (destruct (decide _) as [[-> ?]|?]; [intros _; by repeat constructor|]).
    by intros [? ?].
  - apply sortedMembers_NoDup.
  - intros key s. unfold actionMembers. rewrite elem_of_sortedMembers.
    rewrite indexCommand_lookup.
    repeat (destruct (decide _) as [[_ Hk]|_];
            [first [by intros [= <-] | by destruct Hk as [n ->]]|]).
    done.
Qed.

(** C3: on a request a caller can hold, line 2 is the two characters of the
    empty object when there is no payload; the text [json.Marshal] yields
    when the payload is a structured value, [Source] returning the error of
    [json.Marshal] when it fails; and the very bytes of the payload when it
    is raw bytes or a raw string, by value or behind a pointer. *)
Theorem Source_document_line cs :
  let r := calls cs in
  match doc r with
  | None => (Source r).1 = Done (inl [actionLine r; "{}"])
  | Some (Other v) =>
    match Marshal v with
    | inl body => (Source r).1 = Done (inl [actionLine r; of_bytes body])
    | inr err => (Source r).1 = Done (inr err)
    end
  | Some (RawMessage t) | Some (RawMessagePtr (Some t)) =>
    (Source r).1 = Done (inl [actionLine r; of_bytes t]) ∧ to_bytes (of_bytes t) = t
  | Some (GoStr t) | Some (GoStrPtr (Some t)) =>
    (Source r).1 = Done (inl [actionLine r; t])
  | Some (RawMessagePtr None) | Some (GoStrPtr None) => True
  end.
Proof.
  intros r. pose proof (Source_outcome cs) as Hout. fold r in Hout. simpl in Hout.
  destruct (doc r) as [[t|[t|]|t|[t|]|v]|]; try done;
    try (split; [done|apply SString.list_byte_of_string_of_list_byte]).
  by destruct (Marshal v).
Qed.

(** C4, as amended: on a request a caller can hold, [Source] returns an
    error exactly when the payload is a structured value on which
    [json.Marshal] returns an error, and the error is that one, so no error
    comes from the action line; with no payload, or with raw bytes or a raw
    string given by value or behind a pointer that is not nil, [Source]
    returns its lines; and [String] returns no error: when [Source] returns
    an error it returns the error as text, when [Source] returns lines it
    returns line 1, a line feed and line 2, and it recovers nothing, so a
    panic of [Source] is a panic of [String]. *)
Theorem Source_fails_only_in_Marshal cs :
  let r := calls cs in
  (∀ err, (Source r).1 = Done (inr err)
          ↔ ∃ v, doc r = Some (Other v) ∧ Marshal v = inr err) ∧
  (isRawOrAbsent (doc r) = true → ∃ lines, (Source r).1 = Done (inl lines)) ∧
  match (Source r).1 with
  | Done (inr err) => (elastic.String r).1 = Done ("error: " +:+ Error err)
  | Done (inl lines) =>
    ∃ line1 line2, lines = [line1; line2] ∧
                   (elastic.String r).1 = Done (line1 +:+ newline +:+ line2)
  | Panic => (elastic.String r).1 = Panic
  end.
Proof.
  intros r. pose proof (Source_outcome cs) as Hout. fold r in Hout. simpl in Hout.
  split; [|split].
  - intros err. rewrite Hout. split.
    + destruct (doc r) as [[t|[t|]|t|[t|]|v]|]; try done.
      destruct (Marshal v) eqn:Hv; [done|]. intros [= ->]. by exists v.
    + intros (v & -> & ->). done.
  - rewrite Hout. destruct (doc r) as [[t|[t|]|t|[t|]|v]|]; try done; by eexists.
  - unfold elastic.String.
    destruct (Source r) as [[[lines|err]|] r'] eqn:Hs; simpl in *; try done.
    destruct (Source_lines cs lines) as [line2 ->].
    { fold r. by rewrite Hs. }
    by exists (actionLine (calls cs)), line2.
Qed.

(** C5: every setter leaves the cache unset; the cache of a request a caller
    can hold is absent or holds what [Source] computes from the fields as
    they are; a second [Source] with no call in between returns the lines of
    the first, read from the cache; and after a setter [Source] behaves as if
    the earlier [Source] had never run, computing from the new fields. *)
Theorem setters_clear_the_cache cs :
  let r := calls cs in
  (∀ c, isSetter c = true → source (call r c) = None) ∧
  (∀ lines, source r = Some lines →
            (Source (dropSource r)).1 = Done (inl lines)) ∧
  (∀ lines, (Source r).1 = Done (inl lines) →
            source (Source r).2 = Some lines ∧
            Source (Source r).2 = (Done (inl lines), (Source r).2)) ∧
  (∀ c, isSetter c = true →
        Source (call (Source r).2 c) = Source (call r c) ∧
        (Source (call r c)).1 = (Source (dropSource (call r c))).1).
Proof.
  intros r. split; [|split; [|split]].
  - intros c. apply setter_source.
  - apply calls_cache.
  - intros lines Hl.
    assert (source (Source r).2 = Some lines) as Hc.
    { destruct (source r) as [lines'|] eqn:Hs.
      - rewrite (Source_cached _ _ Hs) in Hl |- *. simpl in *. congruence.
      - rewrite (Source_fresh _ Hs) in Hl |- *. simpl in *.
        destruct (doc r) as [[t|[t|]|t|[t|]|v]|]; simpl in *; try congruence.
        destruct (Marshal v); simpl in *; congruence. }
    split; [done|]. by apply Source_cached.
  - intros c Hc. split.
    + f_equal. pose proof (Source_dropSource r) as Hd.
      destruct (Source r).2, r. simpl in Hd.
      injection Hd as -> -> -> -> -> -> -> -> -> -> -> ->.
      by destruct c.
    + by rewrite (dropSource_None _ (setter_source r c Hc)).
Qed.

(** C6: when [RetryOnConflict n] is the last such call on a request, line 1
    has the member [_retry_on_conflict] with the integer [n], zero included,
    and its text is a piece of the line; when [RetryOnConflict] was never
    called, no member has that key. *)
Theorem retryOnConflict_presence_is_tracked cs lines :
  let r := calls cs in
  (Source r).1 = Done (inl lines) →
  (∀ cs1 cs2 n,
     cs = cs1 ++ CallRetryOnConflict n :: cs2 →
     (∀ m, CallRetryOnConflict m ∉ cs2) →
     ("_retry_on_conflict", VInt n) ∈ actionMembers r ∧
     ∃ pre post,
       lines !! 0%nat
       = Some (pre +:+ (dq "'_retry_on_conflict':" +:+ encodeInt n) +:+ post)) ∧
  (∀ cs1 cs2,
     cs = cs1 ++ CallRetryOnConflict 0 :: cs2 →
     (∀ m, CallRetryOnConflict m ∉ cs2) →
     ∃ pre post,
       lines !! 0%nat = Some (pre +:+ dq "'_retry_on_conflict':0" +:+ post)) ∧
  ((∀ m, CallRetryOnConflict m ∉ cs) →
     "_retry_on_conflict" ∉ (actionMembers r).*1).
Proof.
  intros r [line2 ->]%Source_lines. fold r.
  assert (∀ cs1 cs2 n,
            cs = cs1 ++ CallRetryOnConflict n :: cs2 →
            (∀ m, CallRetryOnConflict m ∉ cs2) →
            indexCommand r !! "_retry_on_conflict" = Some (VInt n)) as Hset.
  { intros cs1 cs2 n -> Hlast.
    pose proof (retryOnConflict_calls (cs1 ++ CallRetryOnConflict n :: cs2)) as Hr.
    rewrite (lastRetryOnConflict_last _ _ _ Hlast) in Hr. fold r in Hr.
    lookup_key; [by rewrite Hr|].
    match goal with Hn : ¬ (_ ∧ is_Some _) |- _ => destruct Hn end.
    split; [done|]. rewrite Hr. eauto. }
  split; [|split].
  - intros cs1 cs2 n Hcs Hlast. pose proof (Hset _ _ _ Hcs Hlast) as Hn.
    split; [by apply elem_of_actionMembers|].
    destruct (actionLine_member _ _ _ Hn) as (pre & post & Heq).
    exists pre, post. simpl. by rewrite Heq.
  - intros cs1 cs2 Hcs Hlast.
    destruct (actionLine_member _ _ _ (Hset _ _ _ Hcs Hlast)) as (pre & post & Heq).
    exists pre, post. simpl. by rewrite Heq.
  - intros Hnever. unfold actionMembers. rewrite elem_of_sortedMembers_keys.
    pose proof (retryOnConflict_calls cs) as Hr.
    rewrite (lastRetryOnConflict_never _ Hnever) in Hr. fold r in Hr.
    lookup_key; [|by intros [? ?]].
    match goal with Hsome : is_Some _ |- _ => destruct Hsome; congruence end.
Qed.

(** C7: line 1 has the member [_version] exactly when the version is above
    zero, and then with the version as its value; [Version] called with zero
    or a negative number gives the lines that [Version(0)] gives, and zero is
    the version of a request on which [Version] was never called. *)
Theorem version_key_iff_positive cs lines :
  let r := calls cs in
  (Source r).1 = Done (inl lines) →
  lines !! 0%nat
    = Some (encodeMembers (encodeMembers encodeValue) [(opType r, actionMembers r)]) ∧
  ("_version" ∈ (actionMembers r).*1 ↔ (version r > 0)%Z) ∧
  (∀ v, ("_version", v) ∈ actionMembers r → v = VInt64 (version r)) ∧
  (∀ n, (n ≤ 0)%Z → (Source (Version n r)).1 = (Source (Version 0 r)).1) ∧
  ((∀ n, CallVersion n ∉ cs) → version r = 0%Z).
Proof.
  intros r [line2 ->]%Source_lines. fold r. split; [done|].
  unfold actionMembers. setoid_rewrite elem_of_sortedMembers.
  rewrite elem_of_sortedMembers_keys. split; [|split; [|split]].
  - lookup_key; [by split; eauto|]. split; [by intros [? ?]|naive_solver].
  - intros v. lookup_key; congruence.
  - intros n Hn.
    rewrite (Source_fresh (Version n r) eq_refl), (Source_fresh (Version 0 r) eq_refl).
    unfold actionLine, actionMembers. rewrite (indexCommand_Version_nonpos r n Hn).
    cbn [doc opType Version].
    destruct (doc r) as [[t|[t|]|t|[t|]|v]|]; try done. by destruct (Marshal v).
  - apply version_never.
Qed.

(** C8, as amended: a new request has the operation type [index] and its
    line 1 is the object with the one key [index]; [OpType] stores its
    argument as it is, and the operation type of a request is not empty as
    long as no call of [OpType] was given the empty string. *)
Theorem opType_not_empty_unless_set_empty cs :
  opType (NewBulkStringRequest (V:=V)) = "index" ∧
  (Source (NewBulkStringRequest (V:=V))).1 = Done (inl [dq "{'index':{}}"; "{}"]) ∧
  (∀ s r, opType (OpType s r) = s) ∧
  ((∀ s, CallOpType s ∈ cs → s ≠ "") → opType (calls cs) ≠ "").
Proof.
  split; [done|]. split; [|split; [done|apply opType_calls]].
  by vm_compute.
Qed.

(** C9: when [json.Marshal] turns a structured value into the bytes [body],
    [Source] yields the same two lines whether the payload of the request is
    that value, the bytes [body] or the string of [body], by value or behind
    a pointer; line 2 is the string of [body]. *)
Theorem payload_polymorphism cs v body d :
  let r := calls cs in
  Marshal v = inl body →
  doc r = Some d →
  d ∈ [Other v; RawMessage body; RawMessagePtr (Some body);
       GoStr (of_bytes body); GoStrPtr (Some (of_bytes body))] →
  (Source r).1 = Done (inl [actionLine r; of_bytes body]).
Proof.
  intros r Hv Hd Hin. unfold r. rewrite Source_outcome. fold r. rewrite Hd.
  repeat (apply elem_of_cons in Hin as [->|Hin]); try done.
  - by rewrite Hv.
  - by apply elem_of_nil in Hin.
Qed.

(** C10: when [Source] returns an error the request is left as it was, with
    the cache unset, so the next [Source] computes again from the fields, and
    once the payload is replaced it is the new payload that is encoded. *)
Theorem Source_error_is_not_cached r err :
  (Source r).1 = Done (inr err) →
  (Source r).2 = r ∧
  source (Source r).2 = None ∧
  Source (Source r).2 = Source (dropSource r) ∧
  (∀ d, Source (Doc d (Source r).2) = Source (Doc d r)).
Proof.
  intros Herr.
  assert (source r = None) as Hs.
  { destruct (source r) as [lines|] eqn:Hs; [|done].
    by rewrite (Source_cached _ _ Hs) in Herr. }
  assert ((Source r).2 = r) as Hr.
  { rewrite (Source_fresh _ Hs) in Herr |- *. simpl in *.
    destruct (doc r) as [[t|[t|]|t|[t|]|v]|]; try done. by destruct (Marshal v). }
  rewrite Hr. by rewrite (dropSource_None _ Hs).
Qed.

End claims.

(** * The test suite and concrete requests *)
Import tests.

Example TestBulkStringRequestSerialization_0 :
  (Source (calls case0)).1 = Done (inl expected0).
Proof. by vm_compute. Qed.

Example TestBulkStringRequestSerialization_1 :
  (Source (calls case1)).1 = Done (inl expected1).
Proof. by vm_compute. Qed.

Example TestBulkStringRequestSerialization_2 :
  (Source (calls case2)).1 = Done (inl expected2).
Proof. by vm_compute. Qed.

Example TestBulkStringRequestSerialization_3 :
  (Source (calls case3)).1 = Done (inl expected3).
Proof. by vm_compute. Qed.

Example TestBulkStringRequestSerialization_4 :
  (Source (calls case4)).1 = Done (inl expected4).
Proof. by vm_compute. Qed.

Example TestBulkStringRequestSerialization_5 :
  (Source (calls case5)).1 = Done (inl expected5).
Proof. by vm_compute. Qed.

(** The keys of request 3 come out in ascending order. *)
Lemma Source_keys_strictly_ascending_case3 :
  (Source (calls case3)).1 = Done (inl expected3) ∧
  StronglySorted lt (actionMembers (calls case3)).*1.
Proof.
  split; [by vm_compute|].
  apply (Source_keys_strictly_ascending case3 expected3). by vm_compute.
Defined.

(** Request 4 has a pipeline and no routing. *)
Lemma Source_action_object_case4 :
  (Source (calls case4)).1 = Done (inl expected4) ∧
  "pipeline" ∈ (actionMembers (calls case4)).*1 ∧
  "_routing" ∉ (actionMembers (calls case4)).*1.
Proof.
  split; [by vm_compute|].
  destruct (Source_action_object case4 expected4) as (_ & Hfields & _);
    [by vm_compute|].
  split.
  - apply (Hfields pipeline "pipeline"); [|done]. unfold stringFields.
    by repeat constructor.
  - intros Hin. apply (Hfields routing "_routing") in Hin; [by apply Hin|].
    unfold stringFields. by repeat constructor.
Defined.

(** C4, the claim as stated fails: a string behind a typed nil pointer is
    taken for a raw string, and neither [Source] nor [String] comes back. *)
Lemma String_panics_on_nil_string_pointer :
  ¬ (∀ cs : list (Call (V:=value)),
       ∃ text, (elastic.String (calls cs)).1 = Done text).
Proof. intros Hall. by destruct (Hall nilStringPointer) as [text Htext]. Qed.

(** A document [json.Marshal] refuses: [Source] returns the error and
    [String] the text of it. *)
Lemma Source_fails_only_in_Marshal_refused :
  (Source (calls refused)).1 = Done (inr "json: unsupported type: chan int") ∧
  (elastic.String (calls refused)).1
  = Done "error: json: unsupported type: chan int".
Proof.
  destruct (Source_fails_only_in_Marshal refused) as (Herr & _ & Hstr).
  split.
  - apply Herr. by exists Chan.
  - exact Hstr.
Defined.

(** After request 0 was encoded, a second [Source] returns the cached lines. *)
Lemma setters_clear_the_cache_case0 :
  (Source (calls case0)).1 = Done (inl expected0) ∧
  source (Source (calls case0)).2 = Some expected0.
Proof.
  destruct (setters_clear_the_cache case0) as (_ & _ & Htwice & _).
  split; [by vm_compute|]. apply Htwice. by vm_compute.
Defined.

(** A retry count of zero is written. *)
Lemma retryOnConflict_presence_is_tracked_zero :
  (Source (calls retryZero)).1
  = Done (inl [dq "{'index':{'_id':'1','_index':'i','_retry_on_conflict':0}}"; "{}"]) ∧
  ∃ pre post,
    dq "{'index':{'_id':'1','_index':'i','_retry_on_conflict':0}}"
    = pre +:+ dq "'_retry_on_conflict':0" +:+ post.
Proof.
  split; [by vm_compute|].
  destruct (retryOnConflict_presence_is_tracked retryZero
              [dq "{'index':{'_id':'1','_index':'i','_retry_on_conflict':0}}"; "{}"])
    as (_ & Hzero & _); [by vm_compute|].
  destruct (Hzero [CallIndex "i"] [CallId "1"] eq_refl) as (pre & post & Heq).
  { intros m [Hin|Hin]%elem_of_cons; [discriminate Hin|by apply elem_of_nil in Hin]. }
  exists pre, post. by injection Heq.
Defined.

(** A version below zero leaves no key. *)
Lemma version_key_iff_positive_negative :
  (Source (calls negativeVersion)).1 = Done (inl [dq "{'index':{'_id':'1'}}"; "{}"]) ∧
  "_version" ∉ (actionMembers (calls negativeVersion)).*1.
Proof.
  split; [by vm_compute|].
  destruct (version_key_iff_positive negativeVersion [dq "{'index':{'_id':'1'}}"; "{}"])
    as (_ & Hiff & _); [by vm_compute|].
  intros Hin. apply Hiff in Hin. by vm_compute in Hin.
Defined.

(** C8, the claim as stated fails: [OpType] accepts the empty string. *)
Lemma opType_can_be_set_empty :
  ¬ (∀ cs : list (Call (V:=value)), opType (calls cs) ≠ "").
Proof. intros Hall. by apply (Hall emptyOpType). Qed.

(** Request 1 was given the operation type [create]. *)
Lemma opType_not_empty_unless_set_empty_case1 : opType (calls case1) ≠ "".
Proof.
  destruct (opType_not_empty_unless_set_empty case1) as (_ & _ & _ & Hne).
  apply Hne. intros s Hin. unfold case1 in Hin.
  repeat (apply elem_of_cons in Hin as [Hin|Hin]; try discriminate Hin).
  - by injection Hin as ->.
  - by apply elem_of_nil in Hin.
Defined.

(** The document of request 0 given as a string yields the same line 2. *)
Lemma payload_polymorphism_asString :
  Marshal (Employee (mkEmployee "olivere" "" 0))
  = inl (to_bytes (dq "{'user':'olivere','city':'','age':0}")) ∧
  (Source (calls asString)).1
  = Done (inl [actionLine (calls asString);
               of_bytes (to_bytes (dq "{'user':'olivere','city':'','age':0}"))]).
Proof.
  split; [by vm_compute|].
  apply (payload_polymorphism asString (Employee (mkEmployee "olivere" "" 0))
           (to_bytes (dq "{'user':'olivere','city':'','age':0}"))
           (GoStr (dq "{'user':'olivere','city':'','age':0}"))).
  - by vm_compute.
  - by vm_compute.
  - do 3 apply list_elem_of_further.
    rewrite jsonFacts.of_to_bytes. apply list_elem_of_here.
Defined.

(** The refused document is not remembered. *)
Lemma Source_error_is_not_cached_refused :
  (Source (calls refused)).1 = Done (inr "json: unsupported type: chan int") ∧
  source (Source (calls refused)).2 = None.
Proof.
  split; [by vm_compute|].
  by destruct (Source_error_is_not_cached (calls refused)
                 "json: unsupported type: chan int") as (_ & Hs & _);
    [by vm_compute|].
Defined.

(** * Further properties of the builder and of [Source] *)
Section builder.
Context {V E : Type} `{!GoRuntime V E}.
Implicit Types (r : BulkStringRequest V) (c : Call (V:=V)) (cs : list (Call (V:=V))).

(** Two setters of different fields can be swapped. *)
Lemma call_comm r c1 c2 f1 f2 :
  assigned c1 = Some f1 → assigned c2 = Some f2 → f1 ≠ f2 →
  call (call r c1) c2 = call (call r c2) c1.
Proof. destruct c1, c2; simpl; intros; by simplify_eq. Qed.

(** A setter reads nothing of the cache. *)
Lemma call_dropSource r c : isSetter c = true → call (dropSource r) c = call r c.
Proof. by destruct c. Qed.

(** X1: a chain of setters that assigns every field at most once builds the
    same request in whatever order the setters are called. *)
Theorem setters_in_any_order r cs1 cs2 :
  cs1 ≡ₚ cs2 →
  NoDup (assigned <$> cs1) →
  Forall (λ c, isSetter c = true) cs1 →
  foldl call r cs1 = foldl call r cs2.
Proof.
  intros Hperm. revert r.
  induction Hperm as [|x l l' _ IH|x y l|l l' l'' H1 IH1 H2 IH2];
    intros r Hnd Hset.
  - done.
  - simpl. apply IH.
    + by apply NoDup_cons in Hnd as [_ ?].
    + by apply Forall_cons in Hset as [_ ?].
  - simpl. f_equal.
    apply Forall_cons in Hset as [Hy [Hx _]%Forall_cons].
    apply NoDup_cons in Hnd as [Hne _].
    destruct (assigned x) as [fx|] eqn:Hfx; [|by destruct x].
    destruct (assigned y) as [fy|] eqn:Hfy; [|by destruct y].
    apply (call_comm r y x fy fx); [done..|].
    intros ->. apply Hne. apply list_elem_of_here.
  - rewrite IH1 by done. apply IH2.
    + by rewrite <- H1.
    + by rewrite <- H1.
Qed.

(** X2: when a field is assigned twice in a row, the second value stands and
    the first call leaves no trace. *)
Theorem setter_overwrites r c1 c2 f :
  assigned c1 = Some f → assigned c2 = Some f → call (call r c1) c2 = call r c2.
Proof. destruct c1, c2; simpl; intros; by simplify_eq. Qed.

(** X3: [Source] changes no field of the request; it leaves the request as it
    was unless it returns lines, and then the cache holds those lines. *)
Theorem Source_assigns_only_the_cache r :
  dropSource (Source r).2 = dropSource r ∧
  match (Source r).1 with
  | Done (inl lines) => source (Source r).2 = Some lines
  | _ => (Source r).2 = r
  end.
Proof.
  split; [apply Source_dropSource|].
  destruct (source r) as [lines|] eqn:Hs.
  - by rewrite (Source_cached _ _ Hs).
  - rewrite (Source_fresh _ Hs). simpl.
    destruct (doc r) as [[t|[t|]|t|[t|]|v]|]; try done. by destruct (Marshal v).
Qed.

(** A second [Source] right after the first gives what the first gave. *)
Lemma Source_twice r : Source (Source r).2 = Source r.
Proof.
  destruct (source r) as [lines|] eqn:Hs.
  - rewrite (Source_cached _ _ Hs). simpl. by rewrite (Source_cached _ _ Hs).
  - rewrite (Source_fresh _ Hs). simpl.
    destruct (doc r) as [[t|[t|]|t|[t|]|v]|] eqn:Hd; simpl;
      rewrite ?(Source_fresh _ Hs), ?Hd; try done.
    destruct (Marshal v) eqn:Hv; simpl;
      first [reflexivity | by rewrite (Source_fresh _ Hs), Hd, Hv].
Qed.

(** X4: [String] leaves the request as [Source] does, so it fills the cache,
    and a second [String] returns the same text and changes nothing more. *)
Theorem String_twice r :
  (elastic.String r).2 = (Source r).2 ∧
  elastic.String (elastic.String r).2 = elastic.String r.
Proof.
  assert ((elastic.String r).2 = (Source r).2) as Hst.
  { unfold elastic.String. by destruct (Source r) as [[[lines|err]|] r']. }
  split; [done|]. rewrite Hst. unfold elastic.String. by rewrite Source_twice.
Qed.

(** The fields after a sequence of calls are those after its setters alone. *)
Lemma calls_setters_only cs :
  dropSource (calls cs) = dropSource (calls (filter (λ c, isSetter c = true) cs)).
Proof.
  induction cs as [|c cs IH] using rev_ind; [done|].
  rewrite filter_app, calls_snoc. destruct (isSetter c) eqn:Hc.
  - rewrite filter_cons_True by done. rewrite filter_nil, calls_snoc.
    by rewrite <- (call_dropSource (calls cs) c Hc), IH, (call_dropSource _ c Hc).
  - rewrite filter_cons_False by (by rewrite Hc). rewrite filter_nil, app_nil_r.
    destruct c; try done. simpl. by rewrite Source_dropSource.
Qed.

(** X5: calls of [Source] made along the way are not observable: [Source]
    gives on a request what it gives on the request built by the same
    setters with the [Source] calls left out. *)
Theorem Source_calls_are_unobservable cs :
  (Source (calls cs)).1 = (Source (calls (filter (λ c, isSetter c = true) cs))).1.
Proof. by rewrite !Source_calls, calls_setters_only. Qed.

(** X6: on a request a caller can hold whose document is a typed nil pointer
    to a raw message or to a string, [Source] panics and so does [String],
    and the request is left as it was; and [String] panics exactly when
    [Source] does. *)
Theorem Source_panics_on_nil_pointer cs :
  (doc (calls cs) = Some (RawMessagePtr None)
   ∨ doc (calls cs) = Some (GoStrPtr None) →
   Source (calls cs) = (Panic, calls cs) ∧
   elastic.String (calls cs) = (Panic, calls cs)) ∧
  ((elastic.String (calls cs)).1 = Panic ↔ (Source (calls cs)).1 = Panic).
Proof.
  split.
  - intros Hd.
    assert (source (calls cs) = None) as Hs.
    { destruct (source (calls cs)) as [lines|] eqn:Hs; [|done].
      apply calls_cache in Hs.
      rewrite (Source_fresh (dropSource (calls cs)) eq_refl) in Hs.
      cbn [doc dropSource] in Hs. by destruct Hd as [Hd|Hd]; rewrite Hd in Hs. }
    assert (Source (calls cs) = (Panic, calls cs)) as Hp
      by by apply Source_nil_pointer.
    split; [done|]. unfold elastic.String. by rewrite Hp.
  - unfold elastic.String.
    by destruct (Source (calls cs)) as [[[lines|err]|] r'].
Qed.

(** Once assigned, the retry count stays assigned. *)
Lemma retryOnConflict_stays cs n :
  CallRetryOnConflict n ∈ cs → is_Some (retryOnConflict (calls cs)).
Proof.
  induction cs as [|c cs IH] using rev_ind; [by intros ?%elem_of_nil|].
  rewrite calls_snoc, elem_of_app. intros Hin.
  destruct c; simpl; try by (apply IH; destruct Hin as [?|Hin]; [done|];
    apply elem_of_cons in Hin as [Hin|?%elem_of_nil]; [discriminate Hin|done]).
  - by eexists.
  - destruct (Source_fields (calls cs) _ eq_refl) as (_&_&_&_&_&_&_&_&_&_&->&_).
    apply IH. destruct Hin as [?|Hin]; [done|].
    apply elem_of_cons in Hin as [Hin|?%elem_of_nil]; [discriminate Hin|done].
Qed.

(** X7: no call takes the retry count back: once [RetryOnConflict] was called
    on a request, line 1 has the member [_retry_on_conflict], whatever calls
    follow. *)
Theorem retryOnConflict_cannot_be_unset cs n :
  CallRetryOnConflict n ∈ cs →
  ∃ m, ("_retry_on_conflict", VInt m) ∈ actionMembers (calls cs).
Proof.
  intros [m Hm]%retryOnConflict_stays. exists m.
  apply elem_of_actionMembers. rewrite indexCommand_lookup.
  do 2 (destruct (decide _) as [[Hk ?]|?]; [discriminate Hk|]).
  destruct (decide _) as [_|Hno]; [by rewrite Hm|].
  destruct Hno. split; [done|]. by rewrite Hm.
Qed.

(** X8: whether [Source] fails or panics, and what line 2 is, depends on the
    document alone; line 1 depends on the other fields alone. *)
Theorem Source_lines_are_independent cs1 cs2 :
  (doc (calls cs1) = doc (calls cs2) →
   (∀ err, (Source (calls cs1)).1 = Done (inr err)
           ↔ (Source (calls cs2)).1 = Done (inr err)) ∧
   ((Source (calls cs1)).1 = Panic ↔ (Source (calls cs2)).1 = Panic) ∧
   (∀ lines1 lines2,
      (Source (calls cs1)).1 = Done (inl lines1) →
      (Source (calls cs2)).1 = Done (inl lines2) →
      lines1 !! 1%nat = lines2 !! 1%nat)) ∧
  (dropSource (Doc None (calls cs1)) = dropSource (Doc None (calls cs2)) →
   ∀ lines1 lines2,
     (Source (calls cs1)).1 = Done (inl lines1) →
     (Source (calls cs2)).1 = Done (inl lines2) →
     lines1 !! 0%nat = lines2 !! 0%nat).
Proof.
  split.
  - intros Hd. rewrite !Source_outcome, Hd.
    destruct (doc (calls cs2)) as [[t|[t|]|t|[t|]|v]|];
      try (split; [done|split; [done|by intros ?? [= <-] [= <-]]]).
    destruct (Marshal v);
      split; [done|split; [done|by intros ?? [= <-] [= <-]] | done |
              split; [done|done]].
  - intros Hm lines1 lines2 [l1 ->]%Source_lines [l2 ->]%Source_lines. simpl.
    f_equal. unfold actionLine, actionMembers.
    change (indexCommand (calls cs1))
      with (indexCommand (dropSource (Doc None (calls cs1)))).
    change (opType (calls cs1)) with (opType (dropSource (Doc None (calls cs1)))).
    by rewrite Hm.
Qed.

(** A sorted list stays sorted when elements are dropped. *)
Lemma StronglySorted_filter {A} (R : relation A) (P : A → Prop)
    `{!∀ x, Decision (P x)} (l : list A) :
  StronglySorted R l → StronglySorted R (filter P l).
Proof.
  induction 1 as [|x l Hl IH Hx]; [constructor|].
  rewrite filter_cons. case_decide; [|done]. constructor; [done|].
  rewrite Forall_forall in Hx |- *. intros y [_ Hy]%list_elem_of_filter. auto.
Qed.

Lemma orderedKeys_sorted : StronglySorted lt orderedKeys.
Proof. apply (bool_decide_unpack _). by vm_compute. Qed.

(** The keys of the action object are the keys of [orderedKeys] the action
    map holds, in that order. *)
Lemma actionMembers_keys r :
  (actionMembers r).*1
  = filter (λ k, is_Some (indexCommand r !! k)) orderedKeys.
Proof.
  apply (StronglySorted_unique_strong lt).
  - intros k1 k2 _ _ H12 H21. by destruct (lt_irrefl k1); etrans.
  - apply sortedMembers_sorted.
  - apply StronglySorted_filter, orderedKeys_sorted.
  - apply NoDup_Permutation.
    + apply sortedMembers_NoDup.
    + apply NoDup_filter. apply (bool_decide_unpack _). by vm_compute.
    + intros k. unfold actionMembers.
      rewrite elem_of_sortedMembers_keys, list_elem_of_filter.
      split; [|by intros [? _]]. intros Hk. split; [done|].
      revert Hk. rewrite indexCommand_lookup. unfold orderedKeys.
      repeat (destruct (decide _) as [[-> ?]|?];
              [intros _; apply (bool_decide_unpack _); by vm_compute|]).
      by intros [? ?].
Qed.

(** X9: whatever fields are set, the keys of the action object come in one
    fixed order: they are a subsequence of [_id], [_index], [_parent],
    [_retry_on_conflict], [_routing], [_ttl], [_type], [_version],
    [_version_type], [pipeline], so there are at most ten members. *)
Theorem action_keys_in_fixed_order r :
  (actionMembers r).*1 `sublist_of` orderedKeys ∧
  length (actionMembers r) ≤ 10.
Proof.
  assert ((actionMembers r).*1 `sublist_of` orderedKeys) as Hsub.
  { rewrite actionMembers_keys. apply sublist_filter. }
  split; [done|]. apply sublist_length in Hsub. by rewrite length_fmap in Hsub.
Qed.

End builder.

(** * Line 1 is one line *)
Module lineFacts.
Import GoString json.

#[local] Open Scope Z_scope.

Lemma oneLine_app (a b : string) : oneLine (a +:+ b) = oneLine a && oneLine b.
Proof.
  induction a as [|x a IH]; [done|].
  change (SString.String x a +:+ b) with (SString.String x (a +:+ b)). cbn [oneLine].
  rewrite IH. by destruct (negb _).
Qed.

Lemma oneLine_Join (l : list string) (sep : string) :
  Forall (λ s, oneLine s = true) l → oneLine sep = true →
  oneLine (Join l sep) = true.
Proof.
  intros Hl Hsep. unfold Join. induction Hl as [|x l Hx Hl IH]; [done|].
  destruct l as [|y l]; [done|].
  change (SString.concat sep (x :: y :: l))
    with (x +:+ sep +:+ SString.concat sep (y :: l)).
  by rewrite !oneLine_app, Hx, Hsep, IH.
Qed.

Lemma notLF (c : ascii) : byteZ c ≠ 10 → Ascii.eqb c "010"%char = false.
Proof. intros Hc. apply Ascii.eqb_neq. intros ->. by apply Hc. Qed.

Lemma hex_notLF (n : Z) : Ascii.eqb (hex n) "010"%char = false.
Proof.
  unfold hex. generalize (Z.to_nat n). intros k.
  do 17 (destruct k as [|k]; [done|]). done.
Qed.

Lemma first_lo (b size lo hi : Z) : first b = Some (size, lo, hi) → 128 ≤ lo.
Proof. unfold first. intros Hf. repeat case_match; simplify_eq; lia. Qed.

Lemma between_notLF (lo hi : Z) (c : ascii) :
  128 ≤ lo → between lo hi c = true → Ascii.eqb c "010"%char = false.
Proof.
  unfold between. intros Hlo [Hc _]%andb_prop. apply notLF.
  apply Z.leb_le in Hc. lia.
Qed.

Lemma oneLine_escapeByte (c : ascii) : oneLine (escapeByte c) = true.
Proof.
  unfold escapeByte. cbv zeta.
  destruct ((byteZ c =? 92) || (byteZ c =? 34)) eqn:Hq.
  - cbn [oneLine]. rewrite (notLF c); [done|].
    apply orb_prop in Hq as [?%Z.eqb_eq|?%Z.eqb_eq]; lia.
  - repeat case_match; try done.
    rewrite oneLine_app. cbn [oneLine]. by rewrite !hex_notLF.
Qed.

(** The escaped text of a string has no line feed: a line feed of the string
    is written as a backslash and the letter n. *)
Lemma oneLine_escape (s : string) : oneLine (escape s) = true.
Proof.
  assert (∀ (n : nat) s, (SString.length s ≤ n)%nat → oneLine (escape s) = true)
    as Hall; [|by eapply Hall].
  clear s. induction n as [|n IH]; intros [|c s1] Hlen; simpl in Hlen;
    try done; [lia|].
  cbn [escape].
  destruct (byteZ c <? 128) eqn:Hb.
  { rewrite oneLine_app, IH by lia.
    destruct (htmlSafeSet (byteZ c)) eqn:Hsafe; [|by rewrite oneLine_escapeByte].
    cbn [oneLine]. rewrite (notLF c); [done|].
    unfold htmlSafeSet in Hsafe.
    apply andb_prop in Hsafe as [[?%Z.leb_le _]%andb_prop _]. lia. }
  apply Z.ltb_ge in Hb.
  assert (Ascii.eqb c "010"%char = false) as Hc by (apply notLF; lia).
  assert (∀ s, (SString.length s ≤ n)%nat →
               oneLine ("\ufffd" +:+ escape s) = true) as Hinv.
  { intros s Hs. by rewrite oneLine_app, IH. }
  destruct (first (byteZ c)) as [[[size lo] hi]|] eqn:Hf; [|apply Hinv; simpl; lia].
  apply first_lo in Hf.
  destruct s1 as [|c1 s2]; [apply Hinv; simpl; lia|]. simpl in Hlen.
  destruct (between lo hi c1) eqn:Hb1; cbn [negb]; [|apply Hinv; simpl; lia].
  apply (between_notLF _ _ _ Hf) in Hb1.
  destruct (size =? 2).
  { cbn [oneLine]. rewrite Hc, Hb1, IH by lia. done. }
  destruct s2 as [|c2 s3]; [apply Hinv; simpl; lia|]. simpl in Hlen.
  destruct (between 128 191 c2) eqn:Hb2; cbn [negb]; [|apply Hinv; simpl; lia].
  apply between_notLF in Hb2; [|lia].
  destruct (size =? 3).
  { destruct (_ && _).
    - rewrite oneLine_app. cbn [oneLine]. rewrite hex_notLF, IH by lia. done.
    - cbn [oneLine]. rewrite Hc, Hb1, Hb2, IH by lia. done. }
  destruct s3 as [|c3 s4]; [apply Hinv; simpl; lia|]. simpl in Hlen.
  destruct (between 128 191 c3) eqn:Hb3; cbn [negb]; [|apply Hinv; simpl; lia].
  apply between_notLF in Hb3; [|lia].
  cbn [oneLine]. rewrite Hc, Hb1, Hb2, Hb3, IH by lia. done.
Qed.

Lemma oneLine_encodeString (s : string) : oneLine (encodeString s) = true.
Proof. unfold encodeString. by rewrite !oneLine_app, oneLine_escape. Qed.

Lemma oneLine_encodeInt (n : Z) : oneLine (encodeInt n) = true.
Proof.
  assert (∀ d, oneLine (NilEmpty.string_of_uint d) = true) as Hd.
  { induction d; simpl; done. }
  assert (∀ d, oneLine (NilZero.string_of_uint d) = true) as Hd0.
  { intros d. unfold NilZero.string_of_uint. destruct d; try done; apply Hd. }
  unfold encodeInt, NilZero.string_of_int.
  destruct (Z.to_int n); [apply Hd0|]. cbn [oneLine]. by rewrite Hd0.
Qed.

Lemma oneLine_encodeValue (v : Value) : oneLine (encodeValue v) = true.
Proof.
  destruct v; [apply oneLine_encodeString|apply oneLine_encodeInt..].
Qed.

Lemma oneLine_encodeMembers {A} (enc : A → string) (kvs : list (string * A)) :
  (∀ a, oneLine (enc a) = true) → oneLine (encodeMembers enc kvs) = true.
Proof.
  intros Henc. unfold encodeMembers. rewrite !oneLine_app, oneLine_Join; [done| |done].
  apply Forall_fmap, Forall_forall. intros [k a] _.
  change (oneLine (encodeString k +:+ ":" +:+ enc a) = true).
  by rewrite !oneLine_app, oneLine_encodeString, Henc.
Qed.

End lineFacts.

Section lines.
Context {V E : Type} `{!GoRuntime V E}.

(** X10: whenever [Source] hands out lines on a request a caller can hold,
    they are two, and line 1 holds no line feed, whatever bytes the fields
    hold: the action line is one line of the bulk body. *)
Theorem Source_line1_is_one_line (cs : list (Call (V:=V))) lines :
  (Source (calls cs)).1 = Done (inl lines) →
  ∃ line1 line2, lines = [line1; line2] ∧ oneLine line1 = true.
Proof.
  intros [line2 ->]%Source_lines. exists (actionLine (calls cs)), line2.
  split; [done|]. unfold actionLine.
  apply lineFacts.oneLine_encodeMembers. intros members.
  apply lineFacts.oneLine_encodeMembers, lineFacts.oneLine_encodeValue.
Qed.

End lines.

(** * The further properties on concrete requests *)

(** Index then id, or id then index. *)
Lemma setters_in_any_order_index_id :
  indexThenId ≡ₚ idThenIndex ∧ calls indexThenId = calls idThenIndex.
Proof.
  split; [apply perm_swap|].
  apply (setters_in_any_order NewBulkStringRequest indexThenId idThenIndex).
  - apply perm_swap.
  - apply (bool_decide_unpack _). by vm_compute.
  - by repeat constructor.
Defined.

(** The index assigned twice. *)
Lemma setter_overwrites_index :
  call (call (calls case0) (CallIndex "a")) (CallIndex "b")
  = call (calls case0) (CallIndex "b").
Proof.
  by apply (setter_overwrites (calls case0) (CallIndex "a") (CallIndex "b")
              FieldIndex).
Defined.

(** A retry count assigned first survives the calls that follow. *)
Lemma retryOnConflict_cannot_be_unset_later :
  CallRetryOnConflict 3 ∈ retryThenMore ∧
  ∃ m, ("_retry_on_conflict", VInt m) ∈ actionMembers (calls retryThenMore).
Proof.
  split; [apply list_elem_of_here|].
  apply (retryOnConflict_cannot_be_unset retryThenMore 3). apply list_elem_of_here.
Defined.

(** Line 1 of request 3 is one line. *)
Lemma Source_line1_is_one_line_case3 :
  (Source (calls case3)).1 = Done (inl expected3) ∧
  ∃ line1 line2, expected3 = [line1; line2] ∧ oneLine line1 = true.
Proof.
  split; [by vm_compute|].
  apply (Source_line1_is_one_line case3 expected3). by vm_compute.
Defined.
